(** * File-Sorter settings dialog: [SettingsWindow.save_settings]

    A shallow embedding of [src/File-Sorter/settings.py].  The dialog owns
    six check boxes, one per well-known user folder, and a save button
    whose [clicked] signal is connected to [save_settings].  That method
    collects [Path.home() / name] for every checked box, emits the list on
    the [settings_saved] signal and closes the window.

    The Python method is effectful: it reads widget state, asks the
    operating system for the home directory (which raises [RuntimeError]
    when it cannot be determined), emits a Qt signal and hides the widget.
    It is embedded in a reader/state/exception monad [M] over an explicit
    [World]. *)

From Stdlib Require Import Ascii.
From stdpp Require Import base strings list gmap.

Open Scope string_scope.
Open Scope list_scope.

(** ** pathlib: pure POSIX paths *)

Module pathlib.

(** A parsed path: pathlib's [_root] and [_tail] (the drive is always
    empty for the POSIX flavour). *)
Record Path : Type := mkPath { root : string; tail : list string }.

#[global] Instance Path_eq_dec : EqDecision Path.
Proof. solve_decision. Defined.

(** [str.split(sep)] for a one-character separator. *)
Fixpoint split (sep : ascii) (s : string) : list string :=
  match s with
  | EmptyString => [EmptyString]
  | String c s' =>
      if Ascii.eqb c sep then EmptyString :: split sep s'
      else match split sep s' with
           | [] => [String c EmptyString]
           | x :: xs => String c x :: xs
           end
  end.

(** [posixpath.splitroot], without the (empty) drive: the root is [""],
    ["/"] or ["//"] (exactly two leading slashes). *)
Definition splitroot (p : string) : string * string :=
  match p with
  | String "/"%char ((String "/"%char (String "/"%char _)) as rest) => ("/", rest)
  | String "/"%char (String "/"%char rest) => ("//", rest)
  | String "/"%char rest => ("/", rest)
  | _ => ("", p)
  end.

(** [PurePath._parse_path]: split off the root, split the rest at the
    separators and drop empty and ["."] components. *)
Definition parse_path (p : string) : Path :=
  let '(r, rel) := splitroot p in
  mkPath r (filter (λ x, x ≠ "" ∧ x ≠ ".") (split "/"%char rel)).

(** [PurePath.__truediv__] with a string operand: an operand with a root
    replaces the left path, a relative operand is appended below it. *)
Definition truediv (self : Path) (key : string) : Path :=
  let k := parse_path key in
  if decide (root k = "") then mkPath (root self) (tail self ++ tail k)
  else k.

(** [PurePosixPath.is_absolute]. *)
Definition is_absolute (p : Path) : bool := bool_decide (root p ≠ "").

(** [PurePath.parent]-style ancestry: [a] is [b] or one of its ancestors
    ([b.is_relative_to(a)]). *)
Definition is_relative_to (b a : Path) : bool :=
  bool_decide (root a = root b) && bool_decide (tail a `prefix_of` tail b).

End pathlib.

Import pathlib.

Infix "</>" := truediv (at level 40, left associativity).

(** ** The world the dialog runs in *)

(** The process environment as far as [Path.home()] sees it: the home
    directory, or [None] when it cannot be determined. *)
Record Env : Type := mkEnv { home_dir : option Path }.

(** A [QCheckBox]: its label and its check state. *)
Record QCheckBox : Type := mkCheckBox { text : string; checked : bool }.

(** The fields of a [SettingsWindow] instance that the class reads or
    writes, and the widget's visibility ([QWidget.isVisible]). *)
Record SettingsWindow : Type := mkWindow {
  windowTitle : string;
  downloads_checkbox : QCheckBox;
  pictures_checkbox : QCheckBox;
  videos_checkbox : QCheckBox;
  documents_checkbox : QCheckBox;
  music_checkbox : QCheckBox;
  desktop_checkbox : QCheckBox;
  save_button : string;
  visible : bool
}.

(** Everything a run can observe or change: the window, the payloads
    delivered so far on the [settings_saved] signal (oldest first), and
    the contents of the file system. *)
Record World : Type := mkWorld {
  window : SettingsWindow;
  settings_saved : list (list Path);
  files : gmap string (list Byte.byte)
}.

Inductive Exn : Type := RuntimeError (msg : string).

Inductive Result (A : Type) : Type :=
  | Ok (a : A)
  | Raised (e : Exn).
Arguments Ok {A} a.
Arguments Raised {A} e.

(** Computations: read the environment, thread the world, return a value
    or raise.  A raised exception keeps the world reached so far. *)
Definition M (A : Type) : Type := Env → World → Result A * World.

#[global] Instance M_ret : MRet M := λ A a _ w, (Ok a, w).
#[global] Instance M_bind : MBind M := λ A B f m env w,
  match m env w with
  | (Ok a, w') => f a env w'
  | (Raised e, w') => (Raised e, w')
  end.

(** *** Primitives of the libraries *)

(** [Path.home()]. *)
Definition Path_home : M Path := λ env w,
  match home_dir env with
  | Some h => (Ok h, w)
  | None => (Raised (RuntimeError "Could not determine home directory."), w)
  end.

(** [self.<box>.isChecked()]. *)
Definition isChecked (box : SettingsWindow → QCheckBox) : M bool :=
  λ _ w, (Ok (checked (box (window w))), w).

(** [self.settings_saved.emit(payload)]. *)
Definition emit (payload : list Path) : M unit := λ _ w,
  (Ok (), mkWorld (window w) (settings_saved w ++ [payload]) (files w)).

Definition hide (s : SettingsWindow) : SettingsWindow :=
  mkWindow (windowTitle s) (downloads_checkbox s) (pictures_checkbox s)
    (videos_checkbox s) (documents_checkbox s) (music_checkbox s)
    (desktop_checkbox s) (save_button s) false.

(** [self.close()]: the default close event is accepted and the widget is
    hidden. *)
Definition close : M unit := λ _ w,
  (Ok (), mkWorld (hide (window w)) (settings_saved w) (files w)).

(** ** The class *)

(** [SettingsWindow.__init__]: six unchecked boxes; the widget is not
    shown by the constructor. *)
Definition init : SettingsWindow :=
  mkWindow "Settings"
    (mkCheckBox "Downloads" false) (mkCheckBox "Pictures" false)
    (mkCheckBox "Videos" false) (mkCheckBox "Documents" false)
    (mkCheckBox "Music" false) (mkCheckBox "Desktop" false)
    "Save Settings" false.

(** [SettingsWindow.save_settings]. *)
Definition save_settings : M unit :=
  let selected_dirs : list Path := [] in
  selected_dirs ← (c ← isChecked downloads_checkbox;
    if c : bool then home ← Path_home; mret (selected_dirs ++ [home </> "Downloads"])
    else mret selected_dirs);
  selected_dirs ← (c ← isChecked pictures_checkbox;
    if c : bool then home ← Path_home; mret (selected_dirs ++ [home </> "Pictures"])
    else mret selected_dirs);
  selected_dirs ← (c ← isChecked videos_checkbox;
    if c : bool then home ← Path_home; mret (selected_dirs ++ [home </> "Videos"])
    else mret selected_dirs);
  selected_dirs ← (c ← isChecked documents_checkbox;
    if c : bool then home ← Path_home; mret (selected_dirs ++ [home </> "Documents"])
    else mret selected_dirs);
  selected_dirs ← (c ← isChecked music_checkbox;
    if c : bool then home ← Path_home; mret (selected_dirs ++ [home </> "Music"])
    else mret selected_dirs);
  selected_dirs ← (c ← isChecked desktop_checkbox;
    if c : bool then home ← Path_home; mret (selected_dirs ++ [home </> "Desktop"])
    else mret selected_dirs);
  (match selected_dirs with
   | [] => emit []
   | _ :: _ => emit selected_dirs
   end);;
  close.

(** ** The six toggles *)

(** The check boxes in the order [__init__] declares them (and adds them
    to the form). *)
Inductive Toggle : Type :=
  Downloads | Pictures | Videos | Documents | Music | Desktop.

#[global] Instance Toggle_eq_dec : EqDecision Toggle.
Proof. solve_decision. Defined.

Definition toggles : list Toggle :=
  [Downloads; Pictures; Videos; Documents; Music; Desktop].

Definition Toggle_to_nat (t : Toggle) : nat :=
  match t with
  | Downloads => 0 | Pictures => 1 | Videos => 2
  | Documents => 3 | Music => 4 | Desktop => 5
  end.

#[global] Instance Toggle_countable : Countable Toggle.
Proof.
  apply (inj_countable' Toggle_to_nat (λ n, default Downloads (toggles !! n))).
  by intros [].
Defined.

(** The attribute of the window that holds a toggle's check box. *)
Definition checkbox (t : Toggle) : SettingsWindow → QCheckBox :=
  match t with
  | Downloads => downloads_checkbox
  | Pictures => pictures_checkbox
  | Videos => videos_checkbox
  | Documents => documents_checkbox
  | Music => music_checkbox
  | Desktop => desktop_checkbox
  end.

Definition is_checked (s : SettingsWindow) (t : Toggle) : bool :=
  checked (checkbox t s).

(** The toggles that are checked, as a set. *)
Definition selection (s : SettingsWindow) : gset Toggle :=
  list_to_set (filter (λ t, is_checked s t = true) toggles).

(** *** What the specification asks of a commit *)

(** The well-known folder a toggle stands for. *)
Definition folder (t : Toggle) : string :=
  match t with
  | Downloads => "Downloads"
  | Pictures => "Pictures"
  | Videos => "Videos"
  | Documents => "Documents"
  | Music => "Music"
  | Desktop => "Desktop"
  end.

(** The well-known-directory resolution of a toggle. *)
Definition resolve (home : Path) (t : Toggle) : Path := home </> folder t.

(** The table-driven reading of the specification: walk the toggles once,
    in declaration order, and resolve those in [S]. *)
Definition resolutions (home : Path) (S : gset Toggle) : list Path :=
  resolve home <$> filter (λ t, t ∈ S) toggles.

(** ** User interaction *)

Definition set_checked (b : bool) (c : QCheckBox) : QCheckBox :=
  mkCheckBox (text c) b.

Definition update_checkbox (t : Toggle) (f : QCheckBox → QCheckBox)
    (s : SettingsWindow) : SettingsWindow :=
  let upd u := if decide (u = t) then f (checkbox u s) else checkbox u s in
  mkWindow (windowTitle s) (upd Downloads) (upd Pictures) (upd Videos)
    (upd Documents) (upd Music) (upd Desktop) (save_button s) (visible s).

(** The user clicks a check box: [QAbstractButton.toggle]. *)
Definition toggle (t : Toggle) : M unit := λ _ w,
  (Ok (),
   mkWorld (update_checkbox t (λ c, set_checked (negb (checked c)) c) (window w))
     (settings_saved w) (files w)).

(** [QWidget.show]. *)
Definition show (s : SettingsWindow) : SettingsWindow :=
  mkWindow (windowTitle s) (downloads_checkbox s) (pictures_checkbox s)
    (videos_checkbox s) (documents_checkbox s) (music_checkbox s)
    (desktop_checkbox s) (save_button s) true.

(** Modelled from the spec: the caller that opens the settings surface is
    not part of the excerpt; "the selection state is created fresh each
    time the settings surface opens", so opening constructs a window and
    shows it, with nothing emitted yet. *)
Definition open_settings (fs : gmap string (list Byte.byte)) : World :=
  mkWorld (show init) [] fs.

(** What the user can do with the widgets [__init__] creates: click one of
    the six check boxes, or click the save button, whose [clicked] signal
    is connected to [save_settings]. *)
Inductive Action : Type :=
  | ClickBox (t : Toggle)
  | ClickSave.

Definition handler (a : Action) : M unit :=
  match a with
  | ClickBox t => toggle t
  | ClickSave => save_settings
  end.

(** One step of the event loop: only a visible widget receives clicks; the
    handler runs to completion (an exception escaping a slot is reported
    and the loop goes on with the world the handler left). *)
Inductive step (env : Env) : World → Action → World → Prop :=
  | step_click w a :
      visible (window w) = true →
      step env w a (handler a env w).2.

Inductive steps (env : Env) : World → list Action → World → Prop :=
  | steps_nil w : steps env w [] w
  | steps_cons w a w' tr w'' :
      step env w a w' → steps env w' tr w'' → steps env w (a :: tr) w''.

(** The two states of the surface. *)
Inductive Surface : Type := Open | Closed.

Definition surface (w : World) : Surface :=
  if visible (window w) then Open else Closed.

Definition is_commit (a : Action) : bool :=
  match a with ClickSave => true | ClickBox _ => false end.

(** The payloads a computation delivers on [settings_saved] when run in
    [w]: what it adds to the record of emissions. *)
Definition emissions {A} (m : M A) (env : Env) (w : World) : list (list Path) :=
  drop (length (settings_saved w)) (settings_saved (m env w).2).

(** A window with exactly the toggles in [S] checked. *)
Definition with_selection (S : gset Toggle) (s : SettingsWindow) : SettingsWindow :=
  let box t := set_checked (bool_decide (t ∈ S)) (checkbox t s) in
  mkWindow (windowTitle s) (box Downloads) (box Pictures) (box Videos)
    (box Documents) (box Music) (box Desktop) (save_button s) (visible s).

(** What one conditional of [save_settings] contributes for toggle [t]. *)
Definition picked (h : Path) (s : SettingsWindow) (t : Toggle) : list Path :=
  if is_checked s t then [h </> folder t] else [].

(** The place of toggle [t]'s path in the emitted list: the number of
    checked toggles declared before it. *)
Definition rank (s : SettingsWindow) (t : Toggle) : nat :=
  length (filter (λ u, is_checked s u = true) (take (Toggle_to_nat t) toggles)).

(** Reading a selection back from an emitted list. *)
Definition recover (home : Path) (p : list Path) : gset Toggle :=
  list_to_set (filter (λ t, resolve home t ∈ p) toggles).

(** Replacing the file system of a world. *)
Definition set_files (fs : gmap string (list Byte.byte)) (w : World) : World :=
  mkWorld (window w) (settings_saved w) fs.

(** A computation that neither reads nor writes files: run on any other
    file system it returns the same result and makes the same changes to
    the rest of the world, and leaves that file system as it was. *)
Definition ignores_files {A} (m : M A) : Prop :=
  ∀ env w fs, m env (set_files fs w) = ((m env w).1, set_files fs (m env w).2).

(** The number of clicks on the save button in a run. *)
Definition commits (tr : list Action) : nat :=
  length (filter (λ a, is_commit a = true) tr).

(** The rows of the form, top to bottom: the check boxes in the order
    [__init__] passes them to [form_layout.addRow].  The rows are the
    window's own boxes, so they follow every change of check state. *)
Definition form_layout (s : SettingsWindow) : list QCheckBox :=
  [downloads_checkbox s; pictures_checkbox s; videos_checkbox s;
   documents_checkbox s; music_checkbox s; desktop_checkbox s].

#[global] Instance Action_eq_dec : EqDecision Action.
Proof. solve_decision. Defined.

(** Whether box [t] is clicked an odd number of times in a run. *)
Definition clicked_odd (tr : list Action) (t : Toggle) : bool :=
  Nat.odd (length (filter (λ a, a = ClickBox t) tr)).

(** A sample environment and world for the examples. *)
Definition home_user : Path := mkPath "/" ["home"; "user"].
Definition env_user : Env := mkEnv (Some home_user).
Definition env_homeless : Env := mkEnv None.
Definition world_user (S : gset Toggle) : World :=
  mkWorld (with_selection S (show init)) [] ∅.
(** A world that differs from [world_user S] in everything but the check
    states: a hidden window with another title, an earlier emission on
    record and a file on disk. *)
Definition world_other (S : gset Toggle) : World :=
  mkWorld
    (with_selection S
       (mkWindow "Preferences"
          (mkCheckBox "a" true) (mkCheckBox "b" true) (mkCheckBox "c" true)
          (mkCheckBox "d" true) (mkCheckBox "e" true) (mkCheckBox "f" true)
          "OK" false))
    [[home_user]] {["/home/user/notes.txt" := []]}.

Example ex_truediv : home_user </> "Downloads" = mkPath "/" ["home"; "user"; "Downloads"].
Proof. reflexivity. Qed.

(** An environment whose home directory is a relative path (the [HOME]
    variable set to [users/me]). *)
Definition home_relative : Path := mkPath "" ["users"; "me"].
Definition env_relative : Env := mkEnv (Some home_relative).

(** The handlers invoked one after the other, whether or not the window
    is visible: clicks delivered by the event loop, or the methods called
    directly. *)
Definition run (env : Env) (tr : list Action) (w : World) : World :=
  foldl (λ w a, (handler a env w).2) w tr.

(** ** Sample runs *)

Example ex_splitroot :
  splitroot "///srv" = ("/", "//srv") ∧ splitroot "//srv" = ("//", "srv") ∧
  splitroot "/srv" = ("/", "srv") ∧ splitroot "srv" = ("", "srv").
Proof. repeat split. Qed.

Example ex_parse_path :
  parse_path "/home//user/./Music" = mkPath "/" ["home"; "user"; "Music"].
Proof. reflexivity. Qed.

Example ex_truediv_rooted : home_user </> "/tmp" = mkPath "/" ["tmp"].
Proof. reflexivity. Qed.

Example ex_selection :
  selection (with_selection {[Pictures; Music]} init) = {[Pictures; Music]}.
Proof. vm_compute. reflexivity. Qed.

Example ex_run :
  emissions save_settings env_user (world_user {[Pictures; Music]})
  = [[mkPath "/" ["home"; "user"; "Pictures"]; mkPath "/" ["home"; "user"; "Music"]]].
Proof. vm_compute. reflexivity. Qed.

(** ** Running the monad *)

Lemma bind_run {A B} (m : M A) (f : A → M B) env w :
  (m ≫= f) env w =
  match m env w with
  | (Ok a, w') => f a env w'
  | (Raised e, w') => (Raised e, w')
  end.
Proof. reflexivity. Qed.

(** One [if box.isChecked(): selected_dirs.append(Path.home() / name)]. *)
Lemma append_if_checked_run box name (acc : list Path) env w :
  (c ← isChecked box;
   if c : bool then home ← Path_home; mret (acc ++ [home </> name])
   else mret acc) env w =
  if checked (box (window w)) then
    match home_dir env with
    | Some h => (Ok (acc ++ [h </> name]), w)
    | None => (Raised (RuntimeError "Could not determine home directory."), w)
    end
  else (Ok acc, w).
Proof.
  rewrite bind_run. unfold isChecked.
  destruct (checked (box (window w))); [|reflexivity].
  rewrite bind_run. unfold Path_home.
  by destruct (home_dir env).
Qed.

(** Both branches of the final [if not selected_dirs] emit the list. *)
Lemma emit_branches (l : list Path) :
  match l with [] => emit [] | _ :: _ => emit l end = emit l.
Proof. by destruct l. Qed.

(** *** Selections *)

Lemma elem_of_toggles t : t ∈ toggles.
Proof. destruct t; unfold toggles; set_solver. Qed.

Lemma elem_of_selection s t : t ∈ selection s ↔ is_checked s t = true.
Proof.
  unfold selection. rewrite elem_of_list_to_set, list_elem_of_filter.
  pose proof (elem_of_toggles t). tauto.
Qed.

Lemma filter_toggles_ext (P Q : Toggle → Prop)
    `{!∀ t, Decision (P t)} `{!∀ t, Decision (Q t)} :
  (∀ t, P t ↔ Q t) → filter P toggles = filter Q toggles.
Proof. intros HPQ. apply list_filter_iff. intros t. apply HPQ. Qed.

Lemma resolve_filter_bind h s (l : list Toggle) :
  resolve h <$> filter (λ t, is_checked s t = true) l = l ≫= picked h s.
Proof.
  induction l as [|t l IH]; [reflexivity|].
  rewrite filter_cons, bind_cons. unfold picked at 1.
  destruct (is_checked s t) eqn:Ht.
  - rewrite decide_True by done. rewrite fmap_cons, IH. reflexivity.
  - rewrite decide_False by done. rewrite IH. reflexivity.
Qed.

Lemma resolutions_picked h s :
  resolutions h (selection s) =
  picked h s Downloads ++ picked h s Pictures ++ picked h s Videos ++
  picked h s Documents ++ picked h s Music ++ picked h s Desktop.
Proof.
  unfold resolutions.
  rewrite (filter_toggles_ext _ (λ t, is_checked s t = true))
    by apply elem_of_selection.
  rewrite resolve_filter_bind. unfold toggles.
  rewrite !bind_cons. simpl. by rewrite app_nil_r.
Qed.

Lemma append_if_checked_ok box name (acc : list Path) env w h :
  home_dir env = Some h →
  (c ← isChecked box;
   if c : bool then home ← Path_home; mret (acc ++ [home </> name])
   else mret acc) env w =
  (Ok (acc ++ if checked (box (window w)) then [h </> name] else []), w).
Proof.
  intros Hh. rewrite append_if_checked_run, Hh.
  destruct (checked (box (window w))); [reflexivity|].
  by rewrite app_nil_r.
Qed.

(** *** What a commit does *)

(** With a home directory, [save_settings] returns normally, having
    emitted the resolutions of the checked toggles and hidden the
    window. *)
Lemma save_settings_run env w h :
  home_dir env = Some h →
  save_settings env w =
  (Ok (),
   mkWorld (hide (window w))
     (settings_saved w ++ [resolutions h (selection (window w))])
     (files w)).
Proof.
  intros Hh. unfold save_settings.
  do 6 (rewrite bind_run, (append_if_checked_ok _ _ _ _ _ h Hh)).
  rewrite bind_run, emit_branches. unfold emit, close. simpl.
  rewrite resolutions_picked. unfold picked, is_checked. simpl.
  rewrite <- !(assoc_L (++)). reflexivity.
Qed.

(** Without a home directory a commit with nothing checked still goes
    through; with anything checked the first [Path.home()] raises, before
    anything is emitted or closed. *)
Lemma save_settings_no_home env w :
  home_dir env = None →
  save_settings env w =
  if decide (selection (window w) = ∅) then
    (Ok (), mkWorld (hide (window w)) (settings_saved w ++ [[]]) (files w))
  else (Raised (RuntimeError "Could not determine home directory."), w).
Proof.
  destruct env as [[h|]]; [discriminate|intros _].
  destruct w as [[ttl [x1 b1] [x2 b2] [x3 b3] [x4 b4] [x5 b5] [x6 b6] btn v] log fs].
  destruct b1, b2, b3, b4, b5, b6; vm_compute; reflexivity.
Qed.

Example ex_homeless_raises :
  save_settings env_homeless (world_user {[Videos]}) =
  (Raised (RuntimeError "Could not determine home directory."),
   world_user {[Videos]}).
Proof. vm_compute. reflexivity. Qed.

Lemma emissions_snoc {A} (m : M A) env w r w' p :
  m env w = (r, w') → settings_saved w' = settings_saved w ++ [p] →
  emissions m env w = [p].
Proof.
  intros Hm Hw. unfold emissions. rewrite Hm. simpl. rewrite Hw.
  by rewrite drop_app_length.
Qed.

Lemma emissions_same {A} (m : M A) env w :
  settings_saved (m env w).2 = settings_saved w → emissions m env w = [].
Proof. intros Hw. unfold emissions. rewrite Hw. apply drop_all. Qed.

Lemma emissions_save_settings env w h :
  home_dir env = Some h →
  emissions save_settings env w = [resolutions h (selection (window w))].
Proof.
  intros Hh. eapply emissions_snoc; [by apply save_settings_run|]. done.
Qed.

(** ** Paths of the well-known folders *)

Lemma parse_path_folder t : parse_path (folder t) = mkPath "" [folder t].
Proof. by destruct t. Qed.

Lemma resolve_eq h t : resolve h t = mkPath (root h) (tail h ++ [folder t]).
Proof. unfold resolve, truediv. by rewrite parse_path_folder. Qed.

#[local] Instance folder_inj : Inj (=) (=) folder.
Proof. intros [] []; simpl; congruence. Qed.

#[local] Instance resolve_inj h : Inj (=) (=) (resolve h).
Proof.
  intros t u. rewrite !resolve_eq. intros [= Heq].
  apply app_inv_head in Heq. injection Heq as Heq. by apply (inj folder).
Qed.

Lemma NoDup_toggles : NoDup toggles.
Proof. apply (bool_decide_unpack _). by vm_compute. Qed.

Lemma elem_of_resolutions h (S : gset Toggle) p :
  p ∈ resolutions h S ↔ ∃ t, t ∈ S ∧ p = resolve h t.
Proof.
  unfold resolutions. rewrite list_elem_of_fmap. split.
  - intros (t & -> & Ht). apply list_elem_of_filter in Ht as [Ht _]. eauto.
  - intros (t & Ht & ->). exists t. split; [done|].
    apply list_elem_of_filter. split; [done|apply elem_of_toggles].
Qed.

Lemma resolutions_sublist h (S : gset Toggle) :
  resolutions h S `sublist_of` (resolve h <$> toggles).
Proof. unfold resolutions. apply fmap_sublist, sublist_filter. Qed.

(** ** Commits in an environment with a home directory *)

Section with_home.
Variable env : Env.
Variable h : Path.
Hypothesis Hhome : home_dir env = Some h.

(** C1. For every subset [S] of the six toggles, a commit with exactly the
    toggles of [S] checked returns normally and emits one list: the
    resolutions of the members of [S], walked in declaration order.  A
    path is in the list exactly when it resolves a member of [S], and the
    list is a subsequence of the six resolutions in the order Downloads,
    Pictures, Videos, Documents, Music, Desktop. *)
Theorem C1_commit_emits_resolutions_of_selection (S : gset Toggle) (w : World) :
  selection (window w) = S →
  (save_settings env w).1 = Ok () ∧
  emissions save_settings env w =
    [resolve h <$> filter (λ t, t ∈ S) toggles] ∧
  (∀ p, p ∈ resolve h <$> filter (λ t, t ∈ S) toggles ↔
        ∃ t, t ∈ S ∧ p = h </> folder t) ∧
  (resolve h <$> filter (λ t, t ∈ S) toggles) `sublist_of`
    [h </> "Downloads"; h </> "Pictures"; h </> "Videos";
     h </> "Documents"; h </> "Music"; h </> "Desktop"].
Proof.
  intros <-. split_and!.
  - by rewrite (save_settings_run _ _ _ Hhome).
  - by apply emissions_save_settings.
  - apply elem_of_resolutions.
  - apply (resolutions_sublist h).
Qed.

End with_home.

Lemma C1_witness :
  selection (window (world_user {[Videos; Desktop]})) = {[Videos; Desktop]} ∧
  emissions save_settings env_user (world_user {[Videos; Desktop]}) =
    [[home_user </> "Videos"; home_user </> "Desktop"]].
Proof.
  assert (selection (window (world_user {[Videos; Desktop]})) = {[Videos; Desktop]})
    as Hsel by (vm_compute; reflexivity).
  split; [exact Hsel|].
  destruct (C1_commit_emits_resolutions_of_selection env_user home_user eq_refl
              {[Videos; Desktop]} (world_user {[Videos; Desktop]}) Hsel)
    as (_ & Hemit & _).
  rewrite Hemit. vm_compute. reflexivity.
Defined.

(** ** The empty selection *)

Lemma resolutions_empty h : resolutions h ∅ = [].
Proof. reflexivity. Qed.

Lemma save_settings_nothing_checked env w :
  selection (window w) = ∅ →
  save_settings env w =
  (Ok (), mkWorld (hide (window w)) (settings_saved w ++ [[]]) (files w)).
Proof.
  intros Hsel. destruct (home_dir env) as [h|] eqn:Hh.
  - rewrite (save_settings_run _ _ _ Hh), Hsel. by rewrite resolutions_empty.
  - rewrite (save_settings_no_home _ _ Hh). by rewrite decide_True.
Qed.

(** C2. A commit with no toggle checked returns normally in every
    environment (the home directory is never asked for): it emits one
    payload, the empty list, and leaves the window closed. *)
Theorem C2_commit_with_nothing_checked (env : Env) (w : World) :
  selection (window w) = ∅ →
  save_settings env w =
    (Ok (), mkWorld (hide (window w)) (settings_saved w ++ [[]]) (files w)) ∧
  emissions save_settings env w = [[]] ∧
  surface (save_settings env w).2 = Closed.
Proof.
  intros Hsel. pose proof (save_settings_nothing_checked env w Hsel) as Hrun.
  split_and!; [done| |by rewrite Hrun].
  by eapply emissions_snoc.
Qed.

Lemma C2_witness :
  emissions save_settings env_homeless (world_user ∅) = [[]] ∧
  surface (save_settings env_homeless (world_user ∅)).2 = Closed.
Proof.
  assert (selection (window (world_user ∅)) = ∅) as Hsel
    by (vm_compute; reflexivity).
  exact (proj2 (C2_commit_with_nothing_checked env_homeless (world_user ∅) Hsel)).
Defined.

(** ** The one way a commit can fail *)





(** ** The emitted paths *)

Lemma toggles_split t :
  toggles = take (Toggle_to_nat t) toggles ++ t :: drop (S (Toggle_to_nat t)) toggles.
Proof. by destruct t. Qed.

Lemma lookup_fmap_filter_middle {A B} (f : A → B) (P : A → Prop)
    `{!∀ x, Decision (P x)} (l1 : list A) x (l2 : list A) :
  P x → (f <$> filter P (l1 ++ x :: l2)) !! length (filter P l1) = Some (f x).
Proof.
  intros HP. rewrite filter_app, filter_cons, decide_True by done.
  rewrite fmap_app, fmap_cons. apply list_lookup_middle. by rewrite length_fmap.
Qed.

Lemma resolutions_selection h s :
  resolutions h (selection s) =
  resolve h <$> filter (λ t, is_checked s t = true) toggles.
Proof.
  unfold resolutions. f_equal. apply filter_toggles_ext, elem_of_selection.
Qed.

Lemma truediv_folder_absolute h t :
  is_absolute (h </> folder t) = is_absolute h.
Proof. fold (resolve h t). by rewrite resolve_eq. Qed.

Lemma truediv_folder_below h t : is_relative_to (h </> folder t) h = true.
Proof.
  fold (resolve h t). rewrite resolve_eq. unfold is_relative_to. simpl.
  rewrite !bool_decide_eq_true_2; [done| |done].
  by apply prefix_app_r.
Qed.

Section emitted_paths.
Variable env : Env.
Variable h : Path.
Hypothesis Hhome : home_dir env = Some h.

(** C5. The two scenarios.  With exactly Pictures and Music checked the
    commit emits [home/Pictures; home/Music], in that order; with all six
    toggles checked it emits the six well-known paths in the order
    Downloads, Pictures, Videos, Documents, Music, Desktop. *)
Theorem C5_commit_scenarios (w1 w2 : World) :
  selection (window w1) = {[Pictures; Music]} →
  selection (window w2) = list_to_set toggles →
  emissions save_settings env w1 =
    [[mkPath (root h) (tail h ++ ["Pictures"]);
      mkPath (root h) (tail h ++ ["Music"])]] ∧
  emissions save_settings env w2 =
    [[mkPath (root h) (tail h ++ ["Downloads"]);
      mkPath (root h) (tail h ++ ["Pictures"]);
      mkPath (root h) (tail h ++ ["Videos"]);
      mkPath (root h) (tail h ++ ["Documents"]);
      mkPath (root h) (tail h ++ ["Music"]);
      mkPath (root h) (tail h ++ ["Desktop"])]].
Proof.
  intros H1 H2.
  rewrite !(emissions_save_settings _ _ _ Hhome), H1, H2.
  split; reflexivity.
Qed.

(** C6. For every checked toggle the emitted list holds, at the toggle's
    place among the checked ones, the home directory joined with the
    toggle's folder name: the home path with that one component added
    below it.  The path is anchored at the home directory and is absolute
    exactly when the home directory is; the commit joins and does not make
    a path absolute.  Every element of the list is such a path. *)
Theorem C6_emitted_paths_anchored_at_home (w : World) (t : Toggle) :
  is_checked (window w) t = true →
  ∃ p, emissions save_settings env w = [p] ∧
       p !! rank (window w) t = Some (h </> folder t) ∧
       h </> folder t = mkPath (root h) (tail h ++ [folder t]) ∧
       is_absolute (h </> folder t) = is_absolute h ∧
       is_relative_to (h </> folder t) h = true ∧
       ∀ e, e ∈ p →
         is_absolute e = is_absolute h ∧ is_relative_to e h = true ∧
         ∃ u, is_checked (window w) u = true ∧ e = h </> folder u.
Proof.
  intros Ht. exists (resolutions h (selection (window w))).
  split_and!.
  - by apply emissions_save_settings.
  - rewrite resolutions_selection. unfold rank.
    pose proof (lookup_fmap_filter_middle (resolve h)
      (λ u, is_checked (window w) u = true)
      (take (Toggle_to_nat t) toggles) t (drop (S (Toggle_to_nat t)) toggles) Ht)
      as Hl.
    by rewrite <- toggles_split in Hl.
  - apply resolve_eq.
  - apply truediv_folder_absolute.
  - apply truediv_folder_below.
  - intros e He. apply elem_of_resolutions in He as (u & Hu & ->).
    unfold resolve. rewrite truediv_folder_absolute, truediv_folder_below.
    split_and!; [done..|]. exists u. by rewrite <- elem_of_selection.
Qed.

(** C9. The emitted list determines the selection.  It has no duplicates,
    as many elements as there are checked toggles, and reading it back
    with [recover] returns the selection; so two commits that emit equal
    lists had the same toggles checked.  The six well-known paths under
    one home directory are pairwise distinct. *)
Theorem C9_selection_recoverable_from_emitted_list :
  (∀ w, ∃ p, emissions save_settings env w = [p] ∧
             NoDup p ∧
             length p = size (selection (window w)) ∧
             recover h p = selection (window w)) ∧
  (∀ w1 w2, emissions save_settings env w1 = emissions save_settings env w2 →
            selection (window w1) = selection (window w2)) ∧
  (∀ t u, h </> folder t = h </> folder u → t = u).
Proof.
  assert (∀ S : gset Toggle, recover h (resolutions h S) = S) as Hrec.
  { intros S. apply set_eq. intros t. unfold recover.
    rewrite elem_of_list_to_set, list_elem_of_filter, elem_of_resolutions.
    split.
    - intros [(u & Hu & Heq) _]. by apply (inj (resolve h)) in Heq as ->.
    - intros Ht. split; [eauto|apply elem_of_toggles]. }
  split_and!.
  - intros w. exists (resolutions h (selection (window w))). split_and!.
    + by apply emissions_save_settings.
    + apply (NoDup_fmap_2 _), NoDup_filter, NoDup_toggles.
    + unfold resolutions. rewrite length_fmap.
      rewrite <- (size_list_to_set (C:=gset Toggle))
        by apply NoDup_filter, NoDup_toggles.
      f_equal. apply set_eq. intros t.
      rewrite elem_of_list_to_set, list_elem_of_filter.
      pose proof (elem_of_toggles t). tauto.
    + apply Hrec.
  - intros w1 w2. rewrite !(emissions_save_settings _ _ _ Hhome).
    intros [= Heq]. by rewrite <- (Hrec (selection (window w1))), Heq.
  - intros t u. apply (inj (resolve h)).
Qed.

End emitted_paths.

Lemma C5_witness :
  emissions save_settings env_user (world_user {[Pictures; Music]}) =
    [[mkPath "/" ["home"; "user"; "Pictures"]; mkPath "/" ["home"; "user"; "Music"]]] ∧
  emissions save_settings env_user (world_user (list_to_set toggles)) =
    [[mkPath "/" ["home"; "user"; "Downloads"]; mkPath "/" ["home"; "user"; "Pictures"];
      mkPath "/" ["home"; "user"; "Videos"]; mkPath "/" ["home"; "user"; "Documents"];
      mkPath "/" ["home"; "user"; "Music"]; mkPath "/" ["home"; "user"; "Desktop"]]].
Proof.
  assert (selection (window (world_user {[Pictures; Music]})) = {[Pictures; Music]})
    as H1 by (vm_compute; reflexivity).
  assert (selection (window (world_user (list_to_set toggles))) = list_to_set toggles)
    as H2 by (vm_compute; reflexivity).
  exact (C5_commit_scenarios env_user home_user eq_refl _ _ H1 H2).
Defined.

Lemma C6_witness :
  ∃ p, emissions save_settings env_user (world_user {[Pictures; Music]}) = [p] ∧
       p !! 1 = Some (mkPath "/" ["home"; "user"; "Music"]) ∧
       is_absolute (home_user </> folder Music) = true.
Proof.
  assert (is_checked (window (world_user {[Pictures; Music]})) Music = true)
    as Hc by (vm_compute; reflexivity).
  assert (rank (window (world_user {[Pictures; Music]})) Music = 1)
    as Hr by (vm_compute; reflexivity).
  destruct (C6_emitted_paths_anchored_at_home env_user home_user eq_refl
              (world_user {[Pictures; Music]}) Music Hc)
    as (p & Hp & Hl & _ & Habs & _).
  exists p. split; [exact Hp|]. split; [rewrite <- Hr; exact Hl|].
  rewrite Habs. reflexivity.
Defined.

(** C6, as first stated, fails: with the home directory [users/me] the
    path emitted for the checked Documents box is the relative path
    [users/me/Documents]. *)
Lemma C6_counterexample :
  home_dir env_relative = Some home_relative ∧
  is_checked (window (world_user {[Documents]})) Documents = true ∧
  emissions save_settings env_relative (world_user {[Documents]}) =
    [[mkPath "" ["users"; "me"; "Documents"]]] ∧
  home_relative </> "Documents" = mkPath "" ["users"; "me"; "Documents"] ∧
  is_absolute (mkPath "" ["users"; "me"; "Documents"]) = false.
Proof. vm_compute. repeat split. Qed.

Lemma C9_witness :
  ∃ p, emissions save_settings env_user (world_user {[Documents]}) = [p] ∧
       recover home_user p = selection (window (world_user {[Documents]})).
Proof.
  destruct (proj1 (C9_selection_recoverable_from_emitted_list env_user home_user eq_refl)
              (world_user {[Documents]})) as (p & Hp & _ & _ & Hr).
  exists p. split; [exact Hp|exact Hr].
Defined.

(** ** The surface as a state machine *)

Lemma toggle_settings_saved t env w :
  settings_saved (toggle t env w).2 = settings_saved w.
Proof. reflexivity. Qed.

Lemma toggle_visible t env w :
  visible (window (toggle t env w).2) = visible (window w).
Proof. reflexivity. Qed.

Lemma toggle_is_checked t u env w :
  is_checked (window (toggle t env w).2) u =
  if decide (u = t) then negb (is_checked (window w) u)
  else is_checked (window w) u.
Proof. unfold is_checked. destruct u; simpl; by case_decide. Qed.

Lemma surface_Open w : surface w = Open ↔ visible (window w) = true.
Proof. unfold surface. by destruct (visible (window w)). Qed.

Lemma surface_Closed w : surface w = Closed ↔ visible (window w) = false.
Proof. unfold surface. by destruct (visible (window w)). Qed.

Section surface_machine.
Variable env : Env.
Variable h : Path.
Hypothesis Hhome : home_dir env = Some h.

Lemma step_settings_saved w a w' :
  step env w a w' →
  settings_saved w' =
  settings_saved w ++
    if is_commit a then [resolutions h (selection (window w))] else [].
Proof.
  intros Hstep. inversion Hstep as [w0 a0 Hvis]; subst. destruct a as [t|]; simpl.
  - by rewrite app_nil_r.
  - by rewrite (save_settings_run _ _ _ Hhome).
Qed.

(** C3. Every invocation of the commit emits exactly one payload on
    [settings_saved]; clicking a check box emits nothing; and along any
    run of the event loop the record of emissions grows by exactly one
    payload per click on the save button, so that a surface opened afresh
    has emitted as many payloads as it has seen commits. *)
Theorem C3_one_emission_per_commit :
  (∀ w, ∃ p, emissions save_settings env w = [p]) ∧
  (∀ w t, emissions (toggle t) env w = []) ∧
  (∀ w tr w', steps env w tr w' →
     ∃ ps, settings_saved w' = settings_saved w ++ ps ∧ length ps = commits tr) ∧
  (∀ fs tr w', steps env (open_settings fs) tr w' →
     length (settings_saved w') = commits tr).
Proof.
  assert (∀ w tr w', steps env w tr w' →
     ∃ ps, settings_saved w' = settings_saved w ++ ps ∧ length ps = commits tr)
    as Hrun.
  { intros w tr w' Hsteps.
    induction Hsteps as [w|w a w' tr w'' Hstep Hsteps (ps & Hps & Hlen)].
    - exists []. by rewrite app_nil_r.
    - apply step_settings_saved in Hstep. rewrite Hstep in Hps.
      eexists. split; [by rewrite Hps, <- (assoc_L (++))|].
      unfold commits in *. rewrite filter_cons.
      destruct a as [t|]; simpl; [done|by rewrite Hlen]. }
  split_and!.
  - intros w. eexists. by apply emissions_save_settings.
  - intros w t. by apply emissions_same.
  - exact Hrun.
  - intros fs tr w' Hsteps. by destruct (Hrun _ _ _ Hsteps) as (ps & -> & <-).
Qed.

(** C4. The surface has two states.  Clicks arrive only while it is Open;
    a click on a check box flips that box and stays Open, emitting
    nothing; a click on the save button goes from Open to Closed and
    emits one payload on the way.  Closed is terminal: no step leaves it.
    After every commit the surface is Closed. *)
Theorem C4_surface_open_then_closed :
  (∀ w a w', step env w a w' →
     surface w = Open ∧
     match a with
     | ClickBox t =>
         surface w' = Open ∧ settings_saved w' = settings_saved w ∧
         ∀ u, is_checked (window w') u =
              if decide (u = t) then negb (is_checked (window w) u)
              else is_checked (window w) u
     | ClickSave =>
         surface w' = Closed ∧
         ∃ p, settings_saved w' = settings_saved w ++ [p]
     end) ∧
  (∀ w a w', surface w = Closed → ¬ step env w a w') ∧
  (∀ w, surface w = Open → ∀ a, ∃ w', step env w a w') ∧
  (∀ w, surface (save_settings env w).2 = Closed).
Proof.
  split_and!.
  - intros w a w' Hstep. pose proof (step_settings_saved _ _ _ Hstep) as Hlog.
    inversion Hstep as [w0 a0 Hvis]; subst.
    split; [by apply surface_Open|]. destruct a as [t|]; simpl in *.
    + split_and!.
      * by apply surface_Open.
      * done.
      * intros u. apply (toggle_is_checked t u env w).
    + split; [by rewrite (save_settings_run _ _ _ Hhome)|eauto].
  - intros w a w' Hclosed Hstep. inversion Hstep as [w0 a0 Hvis]; subst.
    apply surface_Closed in Hclosed. congruence.
  - intros w Hopen a. eexists. constructor. by apply surface_Open.
  - intros w. by rewrite (save_settings_run _ _ _ Hhome).
Qed.

End surface_machine.

Lemma C3_witness :
  home_dir env_user = Some home_user ∧
  ∃ p, emissions save_settings env_user (world_user {[Music]}) = [p].
Proof.
  split; [reflexivity|].
  exact (proj1 (C3_one_emission_per_commit env_user home_user eq_refl)
           (world_user {[Music]})).
Defined.

Lemma C4_witness :
  home_dir env_user = Some home_user ∧
  surface (save_settings env_user (open_settings ∅)).2 = Closed.
Proof.
  split; [reflexivity|].
  destruct (C4_surface_open_then_closed env_user home_user eq_refl)
    as (_ & _ & _ & Hclosed).
  exact (Hclosed (open_settings ∅)).
Defined.

(** A run of the event loop: check Music, then save. *)
Example ex_steps :
  steps env_user (open_settings ∅) [ClickBox Music; ClickSave]
    (mkWorld (hide (with_selection {[Music]} (show init)))
       [[mkPath "/" ["home"; "user"; "Music"]]] ∅).
Proof.
  eapply steps_cons; [by constructor|].
  eapply steps_cons; [by constructor|].
  vm_compute. constructor.
Qed.

(** ** The file system *)

Lemma set_files_id w : set_files (files w) w = w.
Proof. by destruct w. Qed.

Lemma ignores_files_ret {A} (a : A) : ignores_files (mret a).
Proof. by intros env w fs. Qed.

Lemma ignores_files_bind {A B} (m : M A) (f : A → M B) :
  ignores_files m → (∀ a, ignores_files (f a)) → ignores_files (m ≫= f).
Proof.
  intros Hm Hf env w fs. rewrite !bind_run, Hm.
  destruct (m env w) as [[a|e] w']; simpl; [apply Hf|reflexivity].
Qed.

Lemma ignores_files_isChecked box : ignores_files (isChecked box).
Proof. by intros env w fs. Qed.

Lemma ignores_files_Path_home : ignores_files Path_home.
Proof. intros env w fs. unfold Path_home. by destruct (home_dir env). Qed.

Lemma ignores_files_emit payload : ignores_files (emit payload).
Proof. by intros env w fs. Qed.

Lemma ignores_files_close : ignores_files close.
Proof. by intros env w fs. Qed.

Lemma ignores_files_unchanged {A} (m : M A) env w :
  ignores_files m → files (m env w).2 = files w.
Proof.
  intros Hm. specialize (Hm env w (files w)). rewrite set_files_id in Hm.
  apply (f_equal (λ r, files r.2)) in Hm. exact Hm.
Qed.

Create HintDb frame discriminated.
#[local] Hint Resolve ignores_files_ret ignores_files_isChecked
  ignores_files_Path_home ignores_files_emit ignores_files_close : frame.

Ltac frame_step :=
  first
    [ apply ignores_files_bind; [|intros ?]
    | match goal with
      | |- ignores_files (if ?c then _ else _) => destruct c
      | |- ignores_files (match ?l with [] => _ | _ :: _ => _ end) => destruct l
      end
    | solve [auto with frame] ].

Lemma save_settings_ignores_files : ignores_files save_settings.
Proof. unfold save_settings. repeat frame_step. Qed.

(** C8. The commit reads no files and writes none.  Run on any other
    file system it returns the same result and changes the window and
    the record of emissions in the same way, and it leaves the file
    system exactly as it found it, whether it returns or raises.  What it
    takes from outside is the location of the home directory, which
    [Path_home] reads from the environment. *)
Theorem C8_commit_leaves_files_alone :
  (∀ env w fs,
     save_settings env (set_files fs w) =
     ((save_settings env w).1, set_files fs (save_settings env w).2)) ∧
  (∀ env w, files (save_settings env w).2 = files w) ∧
  (∀ env w, (Path_home env w).2 = w).
Proof.
  split_and!.
  - exact save_settings_ignores_files.
  - intros env w. apply ignores_files_unchanged, save_settings_ignores_files.
  - intros env w. unfold Path_home. by destruct (home_dir env).
Qed.

Example ex_files_kept :
  files (save_settings env_user (world_other {[Desktop]})).2 =
  {["/home/user/notes.txt" := []]}.
Proof. apply ignores_files_unchanged, save_settings_ignores_files. Qed.

(** ** Determinism *)

Lemma selection_ext s1 s2 :
  (∀ t, is_checked s1 t = is_checked s2 t) → selection s1 = selection s2.
Proof.
  intros Heq. apply set_eq. intros t. by rewrite !elem_of_selection, Heq.
Qed.

Lemma emissions_raised env w :
  home_dir env = None → selection (window w) ≠ ∅ →
  emissions save_settings env w = [].
Proof.
  intros Hh Hsel. apply emissions_same.
  by rewrite (save_settings_no_home _ _ Hh), decide_False.
Qed.

(** C10. The commit is a function of the six check states and the home
    directory alone: two invocations that agree on these, in worlds that
    may differ in everything else (titles and labels, visibility, earlier
    emissions, the file system), finish the same way and emit equal
    lists. *)
Theorem C10_commit_deterministic (env1 env2 : Env) (w1 w2 : World) :
  home_dir env1 = home_dir env2 →
  (∀ t, is_checked (window w1) t = is_checked (window w2) t) →
  (save_settings env1 w1).1 = (save_settings env2 w2).1 ∧
  emissions save_settings env1 w1 = emissions save_settings env2 w2.
Proof.
  intros Hh Hchk. apply selection_ext in Hchk.
  destruct (home_dir env2) as [h|] eqn:Hh2.
  - rewrite !(emissions_save_settings _ _ h) by done.
    rewrite (save_settings_run env1 w1 h Hh), (save_settings_run env2 w2 h Hh2).
    by rewrite Hchk.
  - destruct (decide (selection (window w2) = ∅)) as [Hsel|Hsel].
    + pose proof (save_settings_nothing_checked env2 w2 Hsel) as H2.
      rewrite <- Hchk in Hsel.
      pose proof (save_settings_nothing_checked env1 w1 Hsel) as H1.
      rewrite (emissions_snoc _ _ _ _ _ [] H1), (emissions_snoc _ _ _ _ _ [] H2)
        by done.
      by rewrite H1, H2.
    + rewrite (emissions_raised env2 w2) by done.
      rewrite (emissions_raised env1 w1) by (by rewrite ?Hchk).
      rewrite (save_settings_no_home env1 w1 Hh), (save_settings_no_home env2 w2 Hh2).
      rewrite Hchk, !decide_False by done. split; reflexivity.
Qed.

Lemma C10_witness :
  emissions save_settings env_user (world_user {[Downloads; Videos]}) =
  emissions save_settings (mkEnv (Some home_user)) (world_other {[Downloads; Videos]}).
Proof.
  assert (∀ t, is_checked (window (world_user {[Downloads; Videos]})) t =
               is_checked (window (world_other {[Downloads; Videos]})) t) as Hchk
    by (intros []; vm_compute; reflexivity).
  exact (proj2 (C10_commit_deterministic env_user (mkEnv (Some home_user))
                  (world_user {[Downloads; Videos]})
                  (world_other {[Downloads; Videos]}) eq_refl Hchk)).
Defined.

(** * Further properties of the dialog *)

(** ** The commit when the home directory is missing *)

Lemma selection_nonempty s t : is_checked s t = true → selection s ≠ ∅.
Proof. intros Ht Hsel. apply elem_of_selection in Ht. set_solver. Qed.

Lemma selection_empty_or_checked s :
  selection s = ∅ ∨ ∃ t, is_checked s t = true.
Proof.
  destruct (decide (selection s = ∅)) as [|Hne]; [by left|right].
  apply set_choose_L in Hne as [t Ht]. exists t. by apply elem_of_selection.
Qed.

(** X1. Without a home directory, a commit with some box checked raises
    [RuntimeError] out of the first [Path.home()]: nothing has been
    emitted, the window has not been closed, and the world is the one the
    commit started in. *)
Theorem X1_commit_without_home_raises (env : Env) (w : World) (t : Toggle) :
  home_dir env = None →
  is_checked (window w) t = true →
  save_settings env w =
    (Raised (RuntimeError "Could not determine home directory."), w) ∧
  emissions save_settings env w = [] ∧
  surface (save_settings env w).2 = surface w.
Proof.
  intros Hh Ht. apply selection_nonempty in Ht.
  assert (save_settings env w =
    (Raised (RuntimeError "Could not determine home directory."), w)) as Hrun
    by (by rewrite (save_settings_no_home _ _ Hh), decide_False).
  split_and!; [done|by apply emissions_raised|by rewrite Hrun].
Qed.

Lemma X1_witness :
  save_settings env_homeless (world_user {[Desktop]}) =
    (Raised (RuntimeError "Could not determine home directory."),
     world_user {[Desktop]}) ∧
  surface (save_settings env_homeless (world_user {[Desktop]})).2 = Open.
Proof.
  assert (is_checked (window (world_user {[Desktop]})) Desktop = true) as Hc
    by (vm_compute; reflexivity).
  destruct (X1_commit_without_home_raises env_homeless (world_user {[Desktop]})
              Desktop eq_refl Hc) as (Hrun & _ & Hs).
  split; [exact Hrun|]. rewrite Hs. reflexivity.
Defined.

(** X2. The commit returns normally exactly when the home directory can be
    determined or no box is checked; in every other case it raises. *)
Theorem X2_commit_returns_iff (env : Env) (w : World) :
  (save_settings env w).1 = Ok () ↔
  is_Some (home_dir env) ∨ selection (window w) = ∅.
Proof.
  destruct (home_dir env) as [h|] eqn:Hh.
  - rewrite (save_settings_run _ _ _ Hh). split; [eauto|done].
  - rewrite (save_settings_no_home _ _ Hh).
    destruct (decide (selection (window w) = ∅)) as [Hsel|Hsel]; simpl.
    + split; [by right|done].
    + split; [done|]. intros [[? [=]]|?]; done.
Qed.

(** The two ways a commit can end. *)
Lemma save_settings_cases env w :
  (∃ p, save_settings env w =
        (Ok (), mkWorld (hide (window w)) (settings_saved w ++ [p]) (files w))) ∨
  save_settings env w =
    (Raised (RuntimeError "Could not determine home directory."), w).
Proof.
  destruct (home_dir env) as [h|] eqn:Hh.
  - left. eexists. by apply save_settings_run.
  - rewrite (save_settings_no_home _ _ Hh). case_decide; eauto.
Qed.

(** X3. The commit never touches the form: every check box keeps its
    state and its label, the title and the button stay as they were, and
    the selection after the commit is the selection before it.  On the
    window it can only clear the visibility; it never shows a hidden
    window. *)
Theorem X3_commit_keeps_the_form (env : Env) (w : World) :
  (∀ t, checkbox t (window (save_settings env w).2) = checkbox t (window w)) ∧
  windowTitle (window (save_settings env w).2) = windowTitle (window w) ∧
  save_button (window (save_settings env w).2) = save_button (window w) ∧
  selection (window (save_settings env w).2) = selection (window w) ∧
  (visible (window w) = false →
   visible (window (save_settings env w).2) = false).
Proof.
  destruct (save_settings_cases env w) as [[p ->]| ->]; simpl.
  - split_and!; [by intros []|done..].
  - done.
Qed.

Lemma X3_witness :
  visible (window (save_settings env_user (world_other {[Videos]})).2) = false.
Proof.
  exact (proj2 (proj2 (proj2 (proj2
    (X3_commit_keeps_the_form env_user (world_other {[Videos]})))))
    eq_refl).
Defined.

(** ** Committing twice *)

Lemma selection_hide s : selection (hide s) = selection s.
Proof. apply selection_ext. by intros []. Qed.

(** X4. [save_settings] does not look at the window's visibility: invoked
    a second time, on the window it has just closed, it emits the same
    list once more. *)
Theorem X4_second_commit_emits_again (env : Env) (h : Path) (w : World) :
  home_dir env = Some h →
  emissions (save_settings;; save_settings) env w =
    [resolutions h (selection (window w)); resolutions h (selection (window w))] ∧
  ((save_settings;; save_settings) env w).1 = Ok () ∧
  surface ((save_settings;; save_settings) env w).2 = Closed.
Proof.
  intros Hh. unfold emissions.
  rewrite bind_run, (save_settings_run _ _ _ Hh), (save_settings_run _ _ _ Hh).
  simpl. rewrite selection_hide, <- (assoc_L (++)), drop_app_length. done.
Qed.

Lemma X4_witness :
  emissions (save_settings;; save_settings) env_user (world_user {[Music]}) =
    [[mkPath "/" ["home"; "user"; "Music"]]; [mkPath "/" ["home"; "user"; "Music"]]].
Proof.
  destruct (X4_second_commit_emits_again env_user home_user
              (world_user {[Music]}) eq_refl) as (He & _).
  rewrite He. vm_compute. reflexivity.
Defined.

(** ** From opening the dialog to the commit *)

Lemma clicked_odd_cons a tr t :
  clicked_odd (a :: tr) t =
  xorb (bool_decide (a = ClickBox t)) (clicked_odd tr t).
Proof.
  unfold clicked_odd. rewrite filter_cons. case_bool_decide.
  - rewrite decide_True by done. simpl length.
    by rewrite Nat.odd_succ, <- Nat.negb_odd.
  - by rewrite decide_False.
Qed.

Lemma save_settings_checkbox env w t :
  checkbox t (window (save_settings env w).2) = checkbox t (window w).
Proof.
  destruct (save_settings_cases env w) as [[p ->]| ->]; [by destruct t|done].
Qed.

Lemma toggle_text t u env w :
  text (checkbox u (window (toggle t env w).2)) = text (checkbox u (window w)).
Proof. destruct u; simpl; by case_decide. Qed.

Lemma step_is_checked env w a w' t :
  step env w a w' →
  is_checked (window w') t =
  xorb (bool_decide (a = ClickBox t)) (is_checked (window w) t).
Proof.
  intros Hstep. inversion Hstep as [w0 a0 Hvis]; subst. destruct a as [u|].
  - change (handler (ClickBox u)) with (toggle u). rewrite toggle_is_checked.
    case_decide as Htu.
    + subst. by rewrite bool_decide_eq_true_2.
    + rewrite bool_decide_eq_false_2; [done|]. intros [= ->]. done.
  - unfold is_checked. simpl. by rewrite save_settings_checkbox.
Qed.

Lemma step_text env w a w' t :
  step env w a w' →
  text (checkbox t (window w')) = text (checkbox t (window w)).
Proof.
  intros Hstep. inversion Hstep as [w0 a0 Hvis]; subst. destruct a as [u|].
  - apply toggle_text.
  - simpl. by rewrite save_settings_checkbox.
Qed.

(** Along a run every box ends up flipped once per click on it. *)
Lemma steps_is_checked env w tr w' t :
  steps env w tr w' →
  is_checked (window w') t = xorb (clicked_odd tr t) (is_checked (window w) t).
Proof.
  induction 1 as [w|w a w' tr w'' Hstep _ IH]; [done|].
  rewrite IH, (step_is_checked _ _ _ _ t Hstep), clicked_odd_cons.
  by destruct (bool_decide _), (clicked_odd tr t), (is_checked (window w) t).
Qed.

Lemma steps_text env w tr w' t :
  steps env w tr w' →
  text (checkbox t (window w')) = text (checkbox t (window w)).
Proof.
  induction 1 as [w|w a w' tr w'' Hstep _ IH]; [done|].
  by rewrite IH, (step_text _ _ _ _ t Hstep).
Qed.

Lemma open_settings_unchecked fs t : is_checked (window (open_settings fs)) t = false.
Proof. by destruct t. Qed.

(** X5. A dialog committed as it was opened, or after clicks that cancel
    out (every box clicked an even number of times), has nothing checked:
    the commit goes through in every environment, with or without a home
    directory, and emits the empty list. *)
Theorem X5_untouched_dialog_emits_empty_list
    (env : Env) (fs : gmap string (list Byte.byte)) (tr : list Action) (w : World) :
  steps env (open_settings fs) tr w →
  (∀ t, clicked_odd tr t = false) →
  selection (window w) = ∅ ∧
  (save_settings env w).1 = Ok () ∧
  emissions save_settings env w = [[]].
Proof.
  intros Hsteps Heven.
  assert (selection (window w) = ∅) as Hsel.
  { apply set_eq. intros t. rewrite elem_of_selection.
    rewrite (steps_is_checked _ _ _ _ t Hsteps), Heven, open_settings_unchecked.
    set_solver. }
  pose proof (save_settings_nothing_checked env w Hsel) as Hrun.
  split_and!; [done|by rewrite Hrun|by eapply emissions_snoc].
Qed.

Lemma X5_witness :
  emissions save_settings env_homeless
    (toggle Music env_homeless (toggle Music env_homeless (open_settings ∅)).2).2
  = [[]].
Proof.
  assert (steps env_homeless (open_settings ∅) [ClickBox Music; ClickBox Music]
            (toggle Music env_homeless
               (toggle Music env_homeless (open_settings ∅)).2).2) as Hsteps.
  { eapply steps_cons; [constructor; reflexivity|].
    eapply steps_cons; [constructor; reflexivity|].
    apply steps_nil. }
  assert (∀ t, clicked_odd [ClickBox Music; ClickBox Music] t = false) as Heven
    by (intros []; vm_compute; reflexivity).
  exact (proj2 (proj2 (X5_untouched_dialog_emits_empty_list env_homeless ∅ _ _
                          Hsteps Heven))).
Defined.

(** X6. What a commit emits is decided by the clicks since the dialog was
    opened: a box is checked exactly when it has been clicked an odd
    number of times, and the commit emits the paths of those boxes, in
    declaration order. *)
Theorem X6_commit_emits_boxes_clicked_odd_times
    (env : Env) (h : Path) (fs : gmap string (list Byte.byte))
    (tr : list Action) (w : World) :
  home_dir env = Some h →
  steps env (open_settings fs) tr w →
  (∀ t, is_checked (window w) t = clicked_odd tr t) ∧
  emissions save_settings env w =
    [resolve h <$> filter (λ t, clicked_odd tr t = true) toggles].
Proof.
  intros Hh Hsteps.
  assert (∀ t, is_checked (window w) t = clicked_odd tr t) as Hchk.
  { intros t. rewrite (steps_is_checked _ _ _ _ t Hsteps), open_settings_unchecked.
    by destruct (clicked_odd tr t). }
  split; [done|].
  rewrite (emissions_save_settings _ _ _ Hh), resolutions_selection.
  do 2 f_equal. apply filter_toggles_ext. intros t. by rewrite Hchk.
Qed.

Lemma X6_witness :
  emissions save_settings env_user
    (toggle Music env_user (toggle Videos env_user (open_settings ∅)).2).2
  = [[mkPath "/" ["home"; "user"; "Videos"]; mkPath "/" ["home"; "user"; "Music"]]].
Proof.
  assert (steps env_user (open_settings ∅) [ClickBox Videos; ClickBox Music]
            (toggle Music env_user
               (toggle Videos env_user (open_settings ∅)).2).2) as Hsteps.
  { eapply steps_cons; [constructor; reflexivity|].
    eapply steps_cons; [constructor; reflexivity|].
    apply steps_nil. }
  destruct (X6_commit_emits_boxes_clicked_odd_times env_user home_user ∅ _ _
              eq_refl Hsteps) as (_ & He).
  rewrite He. vm_compute. reflexivity.
Defined.

(** ** The form and the emitted list *)

Lemma open_settings_labels fs t :
  text (checkbox t (window (open_settings fs))) = folder t.
Proof. by destruct t. Qed.

Lemma form_layout_toggles s : form_layout s = (λ t, checkbox t s) <$> toggles.
Proof. reflexivity. Qed.

Lemma form_rows_picked h s (l : list Toggle) :
  (∀ t, text (checkbox t s) = folder t) →
  (λ c, h </> text c) <$>
    filter (λ c, checked c = true) ((λ t, checkbox t s) <$> l)
  = l ≫= picked h s.
Proof.
  intros Hlabel. induction l as [|t l IH]; [reflexivity|].
  rewrite fmap_cons, filter_cons, bind_cons. unfold picked at 1, is_checked.
  destruct (checked (checkbox t s)) eqn:Hc.
  - rewrite decide_True by done. by rewrite fmap_cons, IH, Hlabel.
  - rewrite decide_False by done. by rewrite IH.
Qed.

(** X7. What the user sees is what is emitted.  In a dialog opened by the
    application every box still carries the label [__init__] gave it,
    whatever has been clicked, and a commit emits, for the rows of the
    form from top to bottom, the home directory joined with the label of
    each checked row. *)
Theorem X7_commit_emits_labels_of_checked_rows
    (env : Env) (h : Path) (fs : gmap string (list Byte.byte))
    (tr : list Action) (w : World) :
  home_dir env = Some h →
  steps env (open_settings fs) tr w →
  text <$> form_layout (window w) =
    ["Downloads"; "Pictures"; "Videos"; "Documents"; "Music"; "Desktop"] ∧
  emissions save_settings env w =
    [(λ c, h </> text c) <$>
       filter (λ c, checked c = true) (form_layout (window w))].
Proof.
  intros Hh Hsteps.
  assert (∀ t, text (checkbox t (window w)) = folder t) as Hlabel.
  { intros t. by rewrite (steps_text _ _ _ _ t Hsteps), open_settings_labels. }
  split.
  - rewrite form_layout_toggles, <- list_fmap_compose.
    change ["Downloads"; "Pictures"; "Videos"; "Documents"; "Music"; "Desktop"]
      with (folder <$> toggles).
    apply list_fmap_ext. intros ? t _. apply Hlabel.
  - rewrite (emissions_save_settings _ _ _ Hh), resolutions_selection.
    by rewrite resolve_filter_bind, form_layout_toggles, form_rows_picked.
Qed.

Lemma X7_witness :
  emissions save_settings env_user (toggle Pictures env_user (open_settings ∅)).2
  = [[mkPath "/" ["home"; "user"; "Pictures"]]].
Proof.
  assert (steps env_user (open_settings ∅) [ClickBox Pictures]
            (toggle Pictures env_user (open_settings ∅)).2) as Hsteps.
  { eapply steps_cons; [constructor; reflexivity|]. apply steps_nil. }
  destruct (X7_commit_emits_labels_of_checked_rows env_user home_user ∅ _ _
              eq_refl Hsteps) as (_ & He).
  rewrite He. vm_compute. reflexivity.
Defined.

(** X8. Checking more boxes only adds paths: when the boxes checked in one
    window are among those checked in another, the list the first commit
    emits is a subsequence of the list the second emits, so the paths the
    two have in common come in the same order. *)
Theorem X8_emitted_list_grows_with_selection
    (env : Env) (h : Path) (w1 w2 : World) :
  home_dir env = Some h →
  selection (window w1) ⊆ selection (window w2) →
  ∃ p1 p2, emissions save_settings env w1 = [p1] ∧
           emissions save_settings env w2 = [p2] ∧
           p1 `sublist_of` p2 ∧ (length p1 ≤ length p2)%nat ∧ (length p2 ≤ 6)%nat.
Proof.
  intros Hh Hsub.
  exists (resolutions h (selection (window w1))),
         (resolutions h (selection (window w2))).
  assert (resolutions h (selection (window w1)) `sublist_of`
          resolutions h (selection (window w2))) as Hsl.
  { unfold resolutions. apply fmap_sublist.
    rewrite (filter_toggles_ext (λ t, t ∈ selection (window w1))
      (λ t, t ∈ selection (window w1) ∧ t ∈ selection (window w2)))
      by (intros t; split; [intros Ht; split; [done|by apply Hsub]|by intros [? _]]).
    rewrite <- list_filter_filter. apply sublist_filter. }
  split_and!; [by apply emissions_save_settings..|done|by apply sublist_length|].
  change 6 with (length (resolve h <$> toggles)).
  apply sublist_length, resolutions_sublist.
Qed.

Lemma X8_witness :
  ∃ p1 p2,
    emissions save_settings env_user (world_user {[Music]}) = [p1] ∧
    emissions save_settings env_user (world_other {[Pictures; Music]}) = [p2] ∧
    p1 `sublist_of` p2.
Proof.
  assert (selection (window (world_user {[Music]})) ⊆
          selection (window (world_other {[Pictures; Music]}))) as Hsub.
  { apply (bool_decide_unpack _). vm_compute. exact I. }
  destruct (X8_emitted_list_grows_with_selection env_user home_user
              (world_user {[Music]}) (world_other {[Pictures; Music]})
              eq_refl Hsub) as (p1 & p2 & H1 & H2 & Hsl & _).
  exists p1, p2. split; [exact H1|]. split; [exact H2|exact Hsl].
Defined.

(** ** Nothing reopens the dialog *)

Lemma handler_stays_hidden env a w :
  visible (window w) = false → visible (window (handler a env w).2) = false.
Proof.
  intros Hvis. destruct a as [t|]; [done|]. simpl.
  destruct (save_settings_cases env w) as [[p ->]| ->]; done.
Qed.

Lemma run_stays_hidden env tr w :
  visible (window w) = false → visible (window (run env tr w)) = false.
Proof.
  revert w. induction tr as [|a tr IH]; intros w Hvis; [done|].
  apply IH. by apply handler_stays_hidden.
Qed.

Lemma handler_settings_saved env h a w :
  home_dir env = Some h →
  length (settings_saved (handler a env w).2) =
  length (settings_saved w) + if is_commit a then 1 else 0.
Proof.
  intros Hh. destruct a as [t|]; simpl.
  - lia.
  - rewrite (save_settings_run _ _ _ Hh). simpl. by rewrite length_app.
Qed.

(** X9. Nothing in the class undoes a commit.  However the handlers are
    invoked afterwards, by clicks or directly, on an open or a closed
    window: a hidden window stays hidden; with a home directory the
    window is closed at the end of every sequence that contains a commit;
    and the number of payloads emitted is the number of commits in the
    sequence, one for each, also for commits on the closed window. *)
Theorem X9_commit_is_never_undone
    (env : Env) (h : Path) (tr : list Action) (w : World) :
  home_dir env = Some h →
  (visible (window w) = false → visible (window (run env tr w)) = false) ∧
  (ClickSave ∈ tr → surface (run env tr w) = Closed) ∧
  length (settings_saved (run env tr w)) =
    length (settings_saved w) + commits tr.
Proof.
  intros Hh. split_and!.
  - apply run_stays_hidden.
  - revert w. induction tr as [|a tr IH]; intros w Hin.
    + by apply elem_of_nil in Hin.
    + apply elem_of_cons in Hin as [<-|Hin]; [|by apply IH].
      change (run env (ClickSave :: tr) w)
        with (run env tr (handler ClickSave env w).2).
      apply surface_Closed, run_stays_hidden. simpl.
      by rewrite (save_settings_run _ _ _ Hh).
  - revert w. induction tr as [|a tr IH]; intros w; [simpl; unfold commits; simpl; lia|].
    change (run env (a :: tr) w) with (run env tr (handler a env w).2).
    rewrite IH, (handler_settings_saved _ _ _ _ Hh).
    unfold commits. rewrite filter_cons. destruct a as [t|]; simpl; lia.
Qed.

Lemma X9_witness :
  surface (run env_user [ClickBox Music; ClickSave; ClickBox Videos; ClickSave]
             (open_settings ∅)) = Closed ∧
  length (settings_saved
            (run env_user [ClickBox Music; ClickSave; ClickBox Videos; ClickSave]
               (open_settings ∅))) = 2.
Proof.
  destruct (X9_commit_is_never_undone env_user home_user
              [ClickBox Music; ClickSave; ClickBox Videos; ClickSave]
              (open_settings ∅) eq_refl) as (_ & Hclosed & Hlen).
  split; [|exact Hlen]. apply Hclosed. apply (bool_decide_unpack _). exact I.
Defined.

(** ** Paths are joined, not normalised *)

(** X10. The commit only joins: every emitted path has the root of the
    home directory and its components followed by one folder name.  It is
    absolute exactly when the home directory is, so a relative home
    directory yields relative paths. *)
Theorem X10_emitted_paths_extend_home (env : Env) (h : Path) (w : World) :
  home_dir env = Some h →
  ∃ p, emissions save_settings env w = [p] ∧
       ∀ e, e ∈ p →
         root e = root h ∧
         (∃ t, is_checked (window w) t = true ∧ tail e = tail h ++ [folder t]) ∧
         is_absolute e = is_absolute h.
Proof.
  intros Hh. exists (resolutions h (selection (window w))).
  split; [by apply emissions_save_settings|].
  intros e (t & Ht & ->)%elem_of_resolutions. rewrite resolve_eq. simpl.
  split_and!; [done| |done]. exists t. by rewrite <- elem_of_selection.
Qed.

Lemma X10_witness :
  ∃ p, emissions save_settings (mkEnv (Some (mkPath "" ["users"; "me"])))
         (world_user {[Documents]}) = [p] ∧
       ∀ e, e ∈ p → is_absolute e = false.
Proof.
  destruct (X10_emitted_paths_extend_home
              (mkEnv (Some (mkPath "" ["users"; "me"]))) (mkPath "" ["users"; "me"])
              (world_user {[Documents]}) eq_refl) as (p & Hp & Hall).
  exists p. split; [exact Hp|]. intros e He.
  destruct (Hall e He) as (_ & _ & Habs). exact Habs.
Defined.

(** ** A click and the commit after it *)

Lemma filter_resolve_ne h t (l : list Toggle) :
  filter (λ e, e ≠ resolve h t) (resolve h <$> l) =
  resolve h <$> filter (λ u, u ≠ t) l.
Proof.
  induction l as [|u l IH]; [reflexivity|].
  rewrite fmap_cons, !filter_cons, IH.
  destruct (decide (u = t)) as [->|Hne].
  - rewrite decide_False by (by intros ?). by rewrite decide_False by (by intros ?).
  - rewrite decide_True by (by intros ?%(inj (resolve h))).
    by rewrite decide_True by done.
Qed.

Lemma resolve_elem_of_resolutions h (S : gset Toggle) t :
  resolve h t ∈ resolutions h S ↔ t ∈ S.
Proof.
  rewrite elem_of_resolutions. split.
  - by intros (u & Hu & ->%(inj (resolve h))).
  - eauto.
Qed.

(** X11. One click changes the outcome of the commit by one path: after a
    click on box [t] the commit emits the path of [t] exactly if it would
    not have emitted it before, and the other paths are emitted as
    before, in the same order. *)
Theorem X11_click_flips_one_path (env : Env) (h : Path) (w : World) (t : Toggle) :
  home_dir env = Some h →
  ∃ p p', emissions save_settings env w = [p] ∧
          emissions save_settings env (toggle t env w).2 = [p'] ∧
          (h </> folder t ∈ p' ↔ h </> folder t ∉ p) ∧
          filter (λ e, e ≠ h </> folder t) p' = filter (λ e, e ≠ h </> folder t) p.
Proof.
  intros Hh.
  exists (resolutions h (selection (window w))),
         (resolutions h (selection (window (toggle t env w).2))).
  split_and!; [by apply emissions_save_settings..| |].
  - fold (resolve h t). rewrite !resolve_elem_of_resolutions, !elem_of_selection.
    rewrite toggle_is_checked, decide_True by done.
    by destruct (is_checked (window w) t).
  - fold (resolve h t). rewrite !resolutions_selection, !filter_resolve_ne.
    f_equal. rewrite !list_filter_filter. apply list_filter_iff. intros u.
    rewrite toggle_is_checked. case_decide; [|done]. by split; intros [? _].
Qed.

Lemma X11_witness :
  ∃ p p',
    emissions save_settings env_user (world_user {[Pictures; Music]}) = [p] ∧
    emissions save_settings env_user
      (toggle Music env_user (world_user {[Pictures; Music]})).2 = [p'] ∧
    filter (λ e, e ≠ home_user </> folder Music) p' =
    filter (λ e, e ≠ home_user </> folder Music) p.
Proof.
  destruct (X11_click_flips_one_path env_user home_user
              (world_user {[Pictures; Music]}) Music eq_refl)
    as (p & p' & Hp & Hp' & _ & Hrest).
  exists p, p'. split; [exact Hp|]. split; [exact Hp'|exact Hrest].
Defined.
